(** * ABI element packing (package [abi], file [pack.go])

    A shallow embedding of the leaf-level packers of the contract ABI
    encoder: [packNum], [packBytesSlice] and [packElement], in the two
    revisions found in the sources:

    - [Earlier]  is [src/unnamed/part_000];
    - [Extended] is [src/accounts/abi/pack.go], which adds [toBigInt] and
      checked type assertions.

    Go values reach the packers wrapped in [reflect.Value]; the embedding
    keeps the part of [reflect] the packers observe: the kind, the dynamic
    type, the accessors ([Int], [Uint], [Bool], [Bytes], [Len], [String],
    [Interface]) and the fact that an accessor used on the wrong kind
    panics.  A Go result [([]byte, error)] is a pair of a byte list and an
    optional error; a panic is a separate outcome.

    Go's [int] is taken to be 64 bits wide, with its wrap-around written
    out.  Slices and strings are lists of any length: the limits of memory
    are not modelled.  Functions of the repository that the packers call
    but that are not among the sources ([common], [common/math],
    [mustArrayToByteSlice], the type tags) are modelled from the
    specification and marked as such; [Address.Hex], of which the packer
    only compares the result, is a parameter. *)

From Stdlib Require Import ZArith List Bool Lia.
From Stdlib Require Import Strings.String Strings.Ascii Strings.Byte.
From Stdlib Require Import Numbers.DecimalString.
Import ListNotations.

Local Open Scope string_scope.
Local Open Scope list_scope.
Local Open Scope Z_scope.

(** ** Outcomes: normal return or panic *)

Inductive outcome (A : Type) : Type :=
| Done (a : A)
| Panic.
Arguments Done {A} a.
Arguments Panic {A}.

Definition bind {A B : Type} (m : outcome A) (k : A -> outcome B) : outcome B :=
  match m with
  | Done a => k a
  | Panic => Panic
  end.

Notation "x <- m ;; k" := (bind m (fun x => k))
  (at level 61, m at next level, right associativity).

(** ** Bytes and big-endian words *)

Definition byte_of_Z (z : Z) : byte :=
  match Byte.of_N (Z.to_N (z mod 256)) with
  | Some b => b
  | None => x00
  end.

Definition Z_of_byte (b : byte) : Z := Z.of_N (Byte.to_N b).

(** [be_bytes n x] is the [n]-byte big-endian numeral of [x mod 256^n]. *)
Fixpoint be_bytes (n : nat) (x : Z) : list byte :=
  match n with
  | O => []
  | S k => be_bytes k (x / 256) ++ [byte_of_Z (x mod 256)]
  end.

(** The number a byte string denotes when read big-endian. *)
Definition be_value (bs : list byte) : Z :=
  fold_left (fun acc b => acc * 256 + Z_of_byte b) bs 0.

Definition zeros (n : nat) : list byte := repeat x00 n.

(** Go's [len] on a slice or a string, as an [int]. *)
Definition len {A : Type} (l : list A) : Z := Z.of_nat (List.length l).

(** ** Go's [int]: 64 bits, signed, wrapping *)

Definition int_min : Z := - 2 ^ 63.
Definition int_max : Z := 2 ^ 63 - 1.

Definition wrap_int (z : Z) : Z := (z + 2 ^ 63) mod 2 ^ 64 - 2 ^ 63.

Definition int_add (a b : Z) : Z := wrap_int (a + b).
Definition int_mul (a b : Z) : Z := wrap_int (a * b).
(** Go's integer division truncates toward zero. *)
Definition int_div (a b : Z) : Z := wrap_int (Z.quot a b).

(** ** Go values

    The concrete (non-interface) Go values the packers can be handed.  An
    integer carries the number that [reflect]'s [Int] or [Uint] returns for
    it.  [VOther] stands for every remaining value (floats, structs, maps,
    channels, functions, pointers other than [*big.Int], arrays and slices
    whose elements are not bytes): only its kind, the printed name of its
    type and its [Len] are observable here.  Values of named integer,
    string or byte-slice types are not represented. *)

Inductive int_type : Set := int | int8 | int16 | int32 | int64.
Inductive uint_type : Set := uint | uint8 | uint16 | uint32 | uint64.

Inductive other_kind : Set :=
| OUintptr | OFloat32 | OFloat64 | OComplex64 | OComplex128
| OArray | OChan | OFunc | OMap | OPtr | OSlice | OStruct | OUnsafePointer.

Inductive GoValue : Type :=
| VBool (b : bool)
| VInt (t : int_type) (n : Z)
| VUint (t : uint_type) (n : Z)
| VBigInt (p : option Z)          (* *big.Int; [None] is the nil pointer *)
| VString (s : string)
| VBytes (b : list byte)          (* []byte, that is []uint8 *)
| VArray (b : list byte)          (* [N]byte with N = length b *)
| VAddress (b : list byte)        (* common.Address, a named [20]byte *)
| VOther (k : other_kind) (ty : string) (n : nat).

(** A value of interface type [any]: nil, or a concrete value. *)
Definition any : Type := option GoValue.

Module reflect.

Inductive Kind : Set :=
| Invalid | Bool
| Int | Int8 | Int16 | Int32 | Int64
| Uint | Uint8 | Uint16 | Uint32 | Uint64 | Uintptr
| Float32 | Float64 | Complex64 | Complex128
| Array | Chan | Func | Interface | Map | Ptr | Slice | String | Struct
| UnsafePointer.

(** Dynamic types, as far as the packers compare them. *)
Inductive RType : Type :=
| TBool
| TInt (t : int_type)
| TUint (t : uint_type)
| TBigIntPtr
| TString
| TByteSlice
| TByteArray (n : nat)
| TAddress
| TInterface
| TOther (k : other_kind) (name : string).

(** A [reflect.Value]: either [ValueOf x] for a concrete [x], or a value
    of kind [Interface] (an element of a [[]any], say) holding [x].  The
    zero [Value] and the values read from unexported struct fields, on
    which [Interface] panics, are left out. *)
Inductive Value : Type :=
| Direct (x : GoValue)
| Boxed (x : any).

Definition ValueOf (x : GoValue) : Value := Direct x.

Definition kind_of_int (t : int_type) : Kind :=
  match t with
  | int => Int | int8 => Int8 | int16 => Int16 | int32 => Int32 | int64 => Int64
  end.

Definition kind_of_uint (t : uint_type) : Kind :=
  match t with
  | uint => Uint | uint8 => Uint8 | uint16 => Uint16 | uint32 => Uint32
  | uint64 => Uint64
  end.

Definition kind_of_other (k : other_kind) : Kind :=
  match k with
  | OUintptr => Uintptr | OFloat32 => Float32 | OFloat64 => Float64
  | OComplex64 => Complex64 | OComplex128 => Complex128
  | OArray => Array | OChan => Chan | OFunc => Func | OMap => Map
  | OPtr => Ptr | OSlice => Slice | OStruct => Struct
  | OUnsafePointer => UnsafePointer
  end.

Definition kind_of (x : GoValue) : Kind :=
  match x with
  | VBool _ => Bool
  | VInt t _ => kind_of_int t
  | VUint t _ => kind_of_uint t
  | VBigInt _ => Ptr
  | VString _ => String
  | VBytes _ => Slice
  | VArray _ => Array
  | VAddress _ => Array
  | VOther k _ _ => kind_of_other k
  end.

Definition TypeOf (x : GoValue) : RType :=
  match x with
  | VBool _ => TBool
  | VInt t _ => TInt t
  | VUint t _ => TUint t
  | VBigInt _ => TBigIntPtr
  | VString _ => TString
  | VBytes _ => TByteSlice
  | VArray b => TByteArray (List.length b)
  | VAddress _ => TAddress
  | VOther k ty _ => TOther k ty
  end.

Definition RType_eq_dec (a b : RType) : {a = b} + {a <> b}.
Proof.
  decide equality; try apply Nat.eq_dec; try apply string_dec;
    decide equality.
Defined.

Definition RType_eqb (a b : RType) : bool :=
  if RType_eq_dec a b then true else false.

End reflect.

(** The methods of [reflect.Type] and [reflect.Value] that the packers call.
    A method applied to a value of the wrong kind panics, as in Go. *)

Module RType.

Definition int_name (t : int_type) : string :=
  match t with
  | int => "int" | int8 => "int8" | int16 => "int16" | int32 => "int32"
  | int64 => "int64"
  end.

Definition uint_name (t : uint_type) : string :=
  match t with
  | uint => "uint" | uint8 => "uint8" | uint16 => "uint16"
  | uint32 => "uint32" | uint64 => "uint64"
  end.

(** [Type.String()]: the printed name of a type. *)
Definition String (t : reflect.RType) : string :=
  match t with
  | reflect.TBool => "bool"
  | reflect.TInt i => int_name i
  | reflect.TUint u => uint_name u
  | reflect.TBigIntPtr => "*big.Int"
  | reflect.TString => "string"
  | reflect.TByteSlice => "[]uint8"
  | reflect.TByteArray n =>
      "[" ++ NilEmpty.string_of_uint (Nat.to_uint n) ++ "]uint8"
  | reflect.TAddress => "common.Address"
  | reflect.TInterface => "interface {}"
  | reflect.TOther _ name => name
  end.

End RType.

Module Value.

Import reflect(Value, Direct, Boxed).

Definition Kind (v : Value) : reflect.Kind :=
  match v with
  | Direct x => reflect.kind_of x
  | Boxed _ => reflect.Interface
  end.

Definition Type_ (v : Value) : reflect.RType :=
  match v with
  | Direct x => reflect.TypeOf x
  | Boxed _ => reflect.TInterface
  end.

(** [v.Interface()]: the value as an [any]; for a value of kind
    [Interface] this is the value it holds. *)
Definition Interface (v : Value) : any :=
  match v with
  | Direct x => Some x
  | Boxed x => x
  end.

Definition Int (v : Value) : outcome Z :=
  match v with
  | Direct (VInt _ n) => Done n
  | _ => Panic
  end.

Definition Uint (v : Value) : outcome Z :=
  match v with
  | Direct (VUint _ n) => Done n
  | _ => Panic
  end.

Definition Bool (v : Value) : outcome bool :=
  match v with
  | Direct (VBool b) => Done b
  | _ => Panic
  end.

Definition Bytes (v : Value) : outcome (list byte) :=
  match v with
  | Direct (VBytes b) => Done b
  | _ => Panic
  end.

(** [v.Len()] is defined for arrays, channels, maps, slices and strings. *)
Definition Len (v : Value) : outcome Z :=
  match v with
  | Direct (VString s) => Done (Z.of_nat (String.length s))
  | Direct (VBytes b) => Done (len b)
  | Direct (VArray b) => Done (len b)
  | Direct (VAddress b) => Done (len b)
  | Direct (VOther (OArray | OChan | OMap | OSlice) _ n) => Done (Z.of_nat n)
  | _ => Panic
  end.

(** [v.String()] never panics: for a value that is not of kind [String]
    it returns the text ["<T Value>"], [T] being the value's type. *)
Definition String (v : Value) : string :=
  match v with
  | Direct (VString s) => s
  | _ => "<" ++ RType.String (Type_ v) ++ " Value>"
  end.

End Value.

(** Type assertions [x.(T)] in their two-result form. *)

Definition as_string (x : any) : string * bool :=
  match x with
  | Some (VString s) => (s, true)
  | _ => ("", false)
  end.

Definition as_BigInt (x : any) : option Z * bool :=
  match x with
  | Some (VBigInt p) => (p, true)
  | _ => (None, false)
  end.

Definition as_bytes (x : any) : list byte * bool :=
  match x with
  | Some (VBytes b) => (b, true)
  | _ => ([], false)
  end.

Definition as_Address (x : any) : list byte * bool :=
  match x with
  | Some (VAddress b) => (b, true)
  | _ => (zeros 20, false)
  end.

(** The one-result form [x.(T)] panics when the assertion fails. *)
Definition must {A : Type} (r : A * bool) : outcome A :=
  if snd r then Done (fst r) else Panic.

(** ** Library functions the packers call *)

(** Go's standard package [math/big]: parsing a base-10 numeral.
    [Int.SetString(s, 10)] accepts an optional sign, [+] or [-], followed by
    one or more decimal digits, and nothing else (underscores are only
    allowed with base 0); the whole string has to be consumed. *)
Module big.

Definition digit (c : ascii) : option Z :=
  let n := Z.of_nat (nat_of_ascii c) in
  if (48 <=? n) && (n <=? 57) then Some (n - 48) else None.

(** The digit loop: [acc] is the number read so far. *)
Fixpoint scan (acc : Z) (s : string) : option Z :=
  match s with
  | EmptyString => Some acc
  | String c r =>
      match digit c with
      | Some d => scan (acc * 10 + d) r
      | None => None
      end
  end.

Definition scan_digits (s : string) : option Z :=
  match s with
  | EmptyString => None            (* "number has no digits" *)
  | _ => scan 0 s
  end.

Definition SetString (s : string) : option Z :=
  match s with
  | EmptyString => None
  | String c r =>
      if Ascii.eqb c "-" then option_map Z.opp (scan_digits r)
      else if Ascii.eqb c "+" then scan_digits r
      else scan_digits s
  end.

End big.

(** Package [common/math] is not among the sources. *)
Module math.

(** Modelled from the spec: [math.U256] is missing; the number is "reduced
    modulo 2^256 (i.e., U256 wraparound semantics ...)". *)
Definition U256 (x : Z) : Z := x mod 2 ^ 256.

(** Modelled from the spec: [math.PaddedBigBytes] is missing; it yields the
    big-endian word of the given number of bytes ("encode true as the
    32-byte word 0...01, false as 0...00"). *)
Definition PaddedBigBytes (x : Z) (n : nat) : list byte := be_bytes n x.

(** Modelled from the spec: [math.U256Bytes] is missing; it produces "a
    32-byte big-endian two's-complement encoding of that number reduced
    modulo 2^256". *)
Definition U256Bytes (x : Z) : list byte := PaddedBigBytes (U256 x) 32.

End math.

(** Package [common] is not among the sources. *)
Module common.

(** Modelled from the spec: [common.Big0] and [common.Big1] are missing;
    they are the numbers of the boolean words. *)
Definition Big0 : Z := 0.
Definition Big1 : Z := 1.

(** Modelled from the spec: [common.AddressLength] is missing; an address
    has 20 bytes. *)
Definition AddressLength : nat := 20.

(** Modelled from the spec: [common.RightPadBytes] is missing; the payload
    is "right-padded with zero bytes up to" the given length, and a
    "payload longer than [l] ... is not truncated". *)
Definition RightPadBytes (slice : list byte) (l : Z) : list byte :=
  if l <=? len slice then slice
  else slice ++ zeros (Z.to_nat (l - len slice)).

(** Modelled from the spec: [common.LeftPadBytes] is missing; the address
    is "zero-padded on the left" and "occupies the low-order bytes of the
    word"; like its right-hand twin it does not truncate. *)
Definition LeftPadBytes (slice : list byte) (l : Z) : list byte :=
  if l <=? len slice then slice
  else zeros (Z.to_nat (l - len slice)) ++ slice.

(** Modelled from the spec: [common.HexToAddress] and what it is made of
    ([FromHex], [Hex2Bytes], [BytesToAddress]) are missing; it "parse[s] the
    hex string into a 20-byte address".  An optional [0x] prefix is
    dropped, a string of odd length gets a leading [0], decoding stops at
    the first character that is not a hexadecimal digit, and the bytes are
    right-aligned in the 20 bytes of the address (the last 20 are kept when
    there are more). *)
Definition hex_digit (c : ascii) : option Z :=
  let n := Z.of_nat (nat_of_ascii c) in
  if (48 <=? n) && (n <=? 57) then Some (n - 48)
  else if (97 <=? n) && (n <=? 102) then Some (n - 87)
  else if (65 <=? n) && (n <=? 70) then Some (n - 55)
  else None.

(** Modelled from the spec: [common.Hex2Bytes] is missing; it decodes pairs
    of hexadecimal digits and stops at the first pair that is not one. *)
Fixpoint Hex2Bytes (s : string) : list byte :=
  match s with
  | String a (String b r) =>
      match hex_digit a, hex_digit b with
      | Some x, Some y => byte_of_Z (16 * x + y) :: Hex2Bytes r
      | _, _ => []
      end
  | _ => []
  end.

(** Modelled from the spec: [has0xPrefix] is missing; the textual address
    may start with [0x] or [0X]. *)
Definition has0xPrefix (s : string) : bool :=
  match s with
  | String a (String b _) =>
      Ascii.eqb a "0" && (Ascii.eqb b "x" || Ascii.eqb b "X")
  | _ => false
  end.

(** Modelled from the spec: [common.FromHex] is missing; it drops the
    prefix and completes a string of odd length with a leading [0]. *)
Definition FromHex (s : string) : list byte :=
  let s := if has0xPrefix s then String.substring 2 (String.length s - 2) s
           else s in
  let s := if Nat.odd (String.length s) then String "0" s else s in
  Hex2Bytes s.

(** Modelled from the spec: [common.BytesToAddress] is missing; it keeps
    the last 20 bytes and pads fewer on the left, giving "a 20-byte
    address". *)
Definition BytesToAddress (b : list byte) : list byte :=
  let b := skipn (List.length b - AddressLength) b in
  zeros (AddressLength - List.length b) ++ b.

(** Modelled from the spec: [common.HexToAddress] is missing; it "parse[s]
    the hex string into a 20-byte address". *)
Definition HexToAddress (s : string) : list byte :=
  BytesToAddress (FromHex s).

End common.

(** Modelled from the spec: [mustArrayToByteSlice] belongs to this package
    but is not among the sources.  It "converts a fixed-length,
    statically-sized byte collection into a dynamically-sized byte sequence
    of identical contents and order"; it copies with [reflect.Copy], which
    panics when the elements of its argument are not bytes. *)
Definition mustArrayToByteSlice (value : reflect.Value) : outcome reflect.Value :=
  match value with
  | reflect.Direct (VArray b) => Done (reflect.Direct (VBytes b))
  | reflect.Direct (VAddress b) => Done (reflect.Direct (VBytes b))
  | reflect.Direct (VBytes b) => Done (reflect.Direct (VBytes b))
  | _ => Panic
  end.

(** Modelled from the spec: the type descriptor [Type] and its tags are
    declared elsewhere in the package.  The packers read the tag [T] only;
    [OtherTy] stands for "any other tag" (slices, arrays, tuples, ...). *)
Inductive TypeTag : Set :=
| IntTy | UintTy | BoolTy | StringTy | AddressTy | FixedBytesTy | BytesTy
| FunctionTy
| OtherTy (code : N).

(** Modelled from the spec: the descriptor [Type] is missing; it is
    "supplied by the caller" and "the packer itself only branches on the
    tag". *)
Record ABIType : Set := MkType { T : TypeTag }.

(** ** Errors

    One constructor per error the two revisions build, with what the
    message is formatted from. *)
Inductive error : Type :=
| ErrStringNotString                      (* "String type is not string" *)
| ErrInvalidAddress (addr : string)        (* "... invalid address: %v", addr *)
| ErrNotAnAddress (v : any)                (* "... invalid address: %v", value *)
| ErrBytesNotSlice                         (* "Bytes type is neither slice nor array" *)
| ErrUnknownType (t : TypeTag)             (* "... unknown type: %v", t.T *)
| ErrInvalidString (s : string)            (* "... invalid string: %v", s *)
| ErrUnknownKind (k : reflect.Kind)        (* "... unknown kind: %v", kind *)
| ErrInvalidType (k : reflect.Kind) (cause : error)  (* "... invalid type: %v, %v" *)
| ErrCannotConvert.                        (* "Cannot convert to *big.Int" *)

(** The error taxonomy of the specification. *)
Inductive ErrorKind : Set :=
| InvalidNumericString
| UnsupportedNumericType
| TypeMismatch
| InvalidAddress
| UnsupportedElementType.

Definition error_kind (e : error) : ErrorKind :=
  match e with
  | ErrStringNotString => TypeMismatch
  | ErrInvalidAddress _ => InvalidAddress
  | ErrNotAnAddress _ => TypeMismatch
  | ErrBytesNotSlice => TypeMismatch
  | ErrUnknownType _ => UnsupportedElementType
  | ErrInvalidString _ => InvalidNumericString
  | ErrUnknownKind _ => UnsupportedNumericType
  | ErrInvalidType _ _ => UnsupportedNumericType
  | ErrCannotConvert => UnsupportedNumericType
  end.

(** What a packer returns: the bytes and the error ([None] is [nil]). *)
Definition packed : Type := list byte * option error.

Definition zero_address_hex : string :=
  "0x0000000000000000000000000000000000000000".

(** Dereferencing a [*big.Int]: a nil pointer panics. *)
Definition deref (p : option Z) : outcome Z :=
  match p with
  | Some x => Done x
  | None => Panic
  end.

(** [if reflectValue.Kind() == reflect.Array { reflectValue = mustArrayToByteSlice(reflectValue) }] *)
Definition normalize_array (reflectValue : reflect.Value) : outcome reflect.Value :=
  match Value.Kind reflectValue with
  | reflect.Array => mustArrayToByteSlice reflectValue
  | _ => Done reflectValue
  end.

(** ** The earlier revision ([src/unnamed/part_000]) *)

Module Earlier.

Definition packNum (value : reflect.Value) : outcome packed :=
  match Value.Kind value with
  | reflect.Uint | reflect.Uint8 | reflect.Uint16 | reflect.Uint32
  | reflect.Uint64 =>
      u <- Value.Uint value ;;
      Done (math.U256Bytes u, None)
  | reflect.Int | reflect.Int8 | reflect.Int16 | reflect.Int32
  | reflect.Int64 =>
      i <- Value.Int value ;;
      Done (math.U256Bytes i, None)
  | reflect.Ptr =>
      p <- must (as_BigInt (Value.Interface value)) ;;
      x <- deref p ;;
      Done (math.U256Bytes x, None)
  | reflect.String =>
      s <- must (as_string (Value.Interface value)) ;;
      match big.SetString s with
      | None => Done ([], Some (ErrInvalidString s))
      | Some bn => Done (math.U256Bytes bn, None)
      end
  | kind => Done ([], Some (ErrUnknownKind kind))
  end.

Definition packBytesSlice (bytes : list byte) (l : Z) : outcome packed :=
  r <- packNum (reflect.ValueOf (VInt int l)) ;;
  match r with
  | (_, Some err) => Done ([], Some err)
  | (len_, None) =>
      Done (len_ ++ common.RightPadBytes bytes
                      (int_mul (int_div (int_add l 31) 32) 32), None)
  end.

Section WithHex.

(** [common.Address.Hex], the canonical (checksummed) rendering of an
    address; it is not among the sources and the packer only compares
    its result with the input string. *)
Variable Hex : list byte -> string.

Definition packElement (t : ABIType) (reflectValue : reflect.Value)
  : outcome packed :=
  match T t with
  | IntTy | UintTy => packNum reflectValue
  | StringTy =>
      let s := Value.String reflectValue in
      n <- Value.Len reflectValue ;;
      packBytesSlice (list_byte_of_string s) n
  | AddressTy =>
      c <- (if reflect.RType_eqb (Value.Type_ reflectValue)
                                 (reflect.TypeOf (VString ""))
            then
              let addr := Value.String reflectValue in
              let reflectValue :=
                reflect.ValueOf (VAddress (common.HexToAddress addr)) in
              if negb (String.eqb addr zero_address_hex) then
                a <- must (as_Address (Value.Interface reflectValue)) ;;
                if negb (String.eqb (Hex a) addr)
                then Done (inl ([], Some (ErrInvalidAddress addr)))
                else Done (inr reflectValue)
              else Done (inr reflectValue)
            else Done (inr reflectValue)) ;;
      match c with
      | inl early => Done early
      | inr reflectValue =>
          reflectValue <- normalize_array reflectValue ;;
          b <- Value.Bytes reflectValue ;;
          Done (common.LeftPadBytes b 32, None)
      end
  | BoolTy =>
      b <- Value.Bool reflectValue ;;
      if b then Done (math.PaddedBigBytes common.Big1 32, None)
      else Done (math.PaddedBigBytes common.Big0 32, None)
  | BytesTy =>
      reflectValue <- normalize_array reflectValue ;;
      if negb (reflect.RType_eqb (Value.Type_ reflectValue)
                                 (reflect.TypeOf (VBytes [])))
      then Done ([], Some ErrBytesNotSlice)
      else
        b <- Value.Bytes reflectValue ;;
        n <- Value.Len reflectValue ;;
        packBytesSlice b n
  | FixedBytesTy | FunctionTy =>
      reflectValue <- normalize_array reflectValue ;;
      b <- Value.Bytes reflectValue ;;
      Done (common.RightPadBytes b 32, None)
  | OtherTy _ => Done ([], Some (ErrUnknownType (T t)))
  end.

End WithHex.

End Earlier.

(** ** The extended revision ([src/accounts/abi/pack.go]) *)

Module Extended.

Definition toBigInt (value : any) : Z + error :=
  match value with
  | Some (VInt int v) => inl v
  | Some (VInt int64 v) => inl v
  | Some (VString v) =>
      match big.SetString v with
      | Some bigIntValue => inl bigIntValue
      | None => inr ErrCannotConvert
      end
  | _ => inr ErrCannotConvert
  end.

Definition packNum (value : reflect.Value) : outcome packed :=
  match Value.Kind value with
  | reflect.Uint | reflect.Uint8 | reflect.Uint16 | reflect.Uint32
  | reflect.Uint64 =>
      u <- Value.Uint value ;;
      Done (math.U256Bytes u, None)
  | reflect.Int | reflect.Int8 | reflect.Int16 | reflect.Int32
  | reflect.Int64 =>
      i <- Value.Int value ;;
      Done (math.U256Bytes i, None)
  | reflect.Ptr =>
      p <- must (as_BigInt (Value.Interface value)) ;;
      x <- deref p ;;
      Done (math.U256Bytes x, None)
  | reflect.String =>
      s <- must (as_string (Value.Interface value)) ;;
      match big.SetString s with
      | None => Done ([], Some (ErrInvalidString s))
      | Some bn => Done (math.U256Bytes bn, None)
      end
  | kind =>
      match as_BigInt (Value.Interface value) with
      | (v, true) =>
          x <- deref v ;;
          Done (math.U256Bytes x, None)
      | (_, false) =>
          match toBigInt (Value.Interface value) with
          | inr err => Done ([], Some (ErrInvalidType kind err))
          | inl bn => Done (math.U256Bytes bn, None)
          end
      end
  end.

Definition packBytesSlice (bytes : list byte) (l : Z) : outcome packed :=
  r <- packNum (reflect.ValueOf (VInt int l)) ;;
  match r with
  | (_, Some err) => Done ([], Some err)
  | (len_, None) =>
      Done (len_ ++ common.RightPadBytes bytes
                      (int_mul (int_div (int_add l 31) 32) 32), None)
  end.

Section WithHex.

Variable Hex : list byte -> string.

Definition packElement (t : ABIType) (reflectValue : reflect.Value)
  : outcome packed :=
  match T t with
  | IntTy | UintTy => packNum reflectValue
  | StringTy =>
      let (v, ok) := as_string (Value.Interface reflectValue) in
      if negb ok then Done ([], Some ErrStringNotString)
      else packBytesSlice (list_byte_of_string v)
                          (Z.of_nat (String.length v))
  | AddressTy =>
      let (addr, isStr) := as_string (Value.Interface reflectValue) in
      c <- (if isStr then
              let reflectValue :=
                reflect.ValueOf (VAddress (common.HexToAddress addr)) in
              if negb (String.eqb addr zero_address_hex) then
                a <- must (as_Address (Value.Interface reflectValue)) ;;
                if negb (String.eqb (Hex a) addr)
                then Done (inl ([], Some (ErrInvalidAddress addr)))
                else Done (inr reflectValue)
              else Done (inr reflectValue)
            else Done (inr reflectValue)) ;;
      match c with
      | inl early => Done early
      | inr reflectValue =>
          reflectValue <- normalize_array reflectValue ;;
          let (v, ok) := as_bytes (Value.Interface reflectValue) in
          if ok then Done (common.LeftPadBytes v 32, None)
          else
            let (b, ok) := as_Address (Value.Interface reflectValue) in
            if negb ok
            then Done ([], Some (ErrNotAnAddress
                                   (Value.Interface reflectValue)))
            else Done (common.LeftPadBytes b 32, None)
      end
  | BoolTy =>
      b <- Value.Bool reflectValue ;;
      if b then Done (math.PaddedBigBytes common.Big1 32, None)
      else Done (math.PaddedBigBytes common.Big0 32, None)
  | BytesTy =>
      reflectValue <- normalize_array reflectValue ;;
      if negb (reflect.RType_eqb (Value.Type_ reflectValue)
                                 (reflect.TypeOf (VBytes [])))
      then Done ([], Some ErrBytesNotSlice)
      else
        b <- Value.Bytes reflectValue ;;
        n <- Value.Len reflectValue ;;
        packBytesSlice b n
  | FixedBytesTy | FunctionTy =>
      reflectValue <- normalize_array reflectValue ;;
      b <- Value.Bytes reflectValue ;;
      Done (common.RightPadBytes b 32, None)
  | OtherTy _ => Done ([], Some (ErrUnknownType (T t)))
  end.

End WithHex.

End Extended.

(** ** The specification's vocabulary *)

(** A base-10 integer literal: one or more decimal digits, read
    positionally. *)
Definition is_digit (c : ascii) : bool :=
  let n := nat_of_ascii c in (48 <=? n)%nat && (n <=? 57)%nat.

Definition digit_value (c : ascii) : Z := Z.of_nat (nat_of_ascii c) - 48.

Fixpoint all_digits (s : string) : bool :=
  match s with
  | EmptyString => true
  | String c r => is_digit c && all_digits r
  end.

Fixpoint digits_value (s : string) : Z :=
  match s with
  | EmptyString => 0
  | String c r => digit_value c * 10 ^ Z.of_nat (String.length r) + digits_value r
  end.

Definition numeral (s : string) : option Z :=
  match s with
  | EmptyString => None
  | _ => if all_digits s then Some (digits_value s) else None
  end.

(** "base 10, optional leading [-]". *)
Definition decimal_literal (s : string) : option Z :=
  match s with
  | String "-" r => option_map Z.opp (numeral r)
  | _ => numeral s
  end.

(** The same with either sign allowed in front. *)
Definition signed_decimal_literal (s : string) : option Z :=
  match s with
  | String "-" r => option_map Z.opp (numeral r)
  | String "+" r => numeral r
  | _ => numeral s
  end.

(** [ceil(l/32)*32], the data length rounded up to whole words. *)
Definition ceil_div (a b : Z) : Z :=
  if a mod b =? 0 then a / b else a / b + 1.

Definition padded_length (l : Z) : Z := ceil_div l 32 * 32.

(** "[NumberPacker(l) || RightPad(payload, ceil(l/32)*32)]", the payload
    being kept whole when it is longer than that. *)
Definition length_prefixed (payload : list byte) (l : Z) : list byte :=
  be_bytes 32 l ++ payload
    ++ zeros (Z.to_nat (padded_length l) - List.length payload).

(** The supported numeric inputs of the number packer and the number each
    stands for: machine integers of every width, non-nil arbitrary-precision
    integers, and decimal strings. *)
Definition numeric_input (v : reflect.Value) : option Z :=
  match v with
  | reflect.Direct (VUint _ n) => Some n
  | reflect.Direct (VInt _ n) => Some n
  | reflect.Direct (VBigInt (Some n)) => Some n
  | reflect.Direct (VString s) => decimal_literal s
  | _ => None
  end.



(** The raw byte values: byte slices and byte arrays. *)
Definition raw_bytes (v : reflect.Value) : option (list byte) :=
  match v with
  | reflect.Direct (VBytes b | VArray b | VAddress b) => Some b
  | _ => None
  end.

(** The plain lower-case rendering ["0x" ++ hex digits] of an address, one
    possible [Hex]. *)
Definition hex_char (n : Z) : ascii :=
  ascii_of_nat (Z.to_nat (if n <? 10 then 48 + n else 87 + n)).

Definition lower_hex (b : list byte) : string :=
  "0x" ++ String.concat ""
    (map (fun x => String (hex_char (Z_of_byte x / 16))
                     (String (hex_char (Z_of_byte x mod 16)) "")) b).

(** An outcome whose error, if any, comes with no bytes. *)
Definition total_failure (r : outcome packed) : Prop :=
  match r with
  | Done (bs, Some _) => bs = []
  | _ => True
  end.

(** An outcome whose bytes, if any, are whole 32-byte words. *)
Definition aligned (r : outcome packed) : Prop :=
  match r with
  | Done (bs, _) => len bs mod 32 = 0
  | Panic => True
  end.

(** The string a value holds, if it holds one. *)
Definition held_string (v : reflect.Value) : option string :=
  match Value.Interface v with
  | Some (VString s) => Some s
  | _ => None
  end.


(** Case analysis over the tags and over the values. *)
Ltac each_value v :=
  let x := fresh "x" in
  destruct v as [x|[x|]];
  [ destruct x as [?|[] ?|[] ?|[?|]|?|?|?|?|[] ? ?]
  | destruct x as [?|[] ?|[] ?|[?|]|?|?|?|?|[] ? ?]
  | ].

Ltac break_goal :=
  repeat match goal with
         | |- context [match ?x with _ => _ end] => destruct x eqn:?; cbn
         end.

(** ** Vocabulary for the remaining properties *)

(** The number [toBigInt] finds in a value: an [int], an [int64] or a
    base-10 numeral with an optional sign. *)
Definition convertible_number (x : any) : option Z :=
  match x with
  | Some (VInt int n) | Some (VInt int64 n) => Some n
  | Some (VString s) => signed_decimal_literal s
  | _ => None
  end.

(** The number a value of kind [Interface] stands for in the extended
    number packer: that of a non-nil [*big.Int], or what [toBigInt] finds. *)
Definition boxed_number (x : any) : option Z :=
  match x with
  | Some (VBigInt p) => p
  | _ => convertible_number x
  end.

(** Machine integers other than [int] and [int64]. *)
Definition narrow_integer (x : GoValue) : option Z :=
  match x with
  | VInt (int8 | int16 | int32) n => Some n
  | VUint _ n => Some n
  | _ => None
  end.

(** The bytes the extended revision takes for an address: raw bytes, or a
    byte slice or an address held in an interface. *)
Definition address_bytes (v : reflect.Value) : option (list byte) :=
  match v with
  | reflect.Direct (VBytes b | VArray b | VAddress b) => Some b
  | reflect.Boxed (Some (VBytes b | VAddress b)) => Some b
  | _ => None
  end.

(** Reading a length-prefixed encoding back: the length word, then that
    many bytes of what follows. *)
Definition unpack_length (bs : list byte) : Z := be_value (firstn 32 bs).

Definition unpack_payload (bs : list byte) : list byte :=
  firstn (Z.to_nat (unpack_length bs)) (skipn 32 bs).

(** An outcome that is not an error: bytes alone, or a panic. *)
Definition no_error (r : outcome packed) : Prop :=
  match r with
  | Done (_, Some _) => False
  | _ => True
  end.

Ltac break_hyp H :=
  repeat match type of H with
         | context [match ?x with _ => _ end] => destruct x eqn:?; cbn in H
         end.

(** * Properties *)

(** ** Bytes and words *)

Lemma Z_of_byte_of_Z (z : Z) : Z_of_byte (byte_of_Z z) = z mod 256.
Proof.
  unfold Z_of_byte, byte_of_Z.
  assert (Hr : 0 <= z mod 256 < 256) by (apply Z.mod_pos_bound; lia).
  destruct (Byte.of_N (Z.to_N (z mod 256))) as [b|] eqn:E.
  - apply Byte.to_of_N in E. rewrite E. apply Z2N.id. lia.
  - apply Byte.of_N_None_iff in E. lia.
Qed.

Lemma Z_of_byte_range (b : byte) : 0 <= Z_of_byte b < 256.
Proof.
  unfold Z_of_byte. pose proof (Byte.to_N_bounded b). lia.
Qed.

Lemma be_bytes_length (n : nat) (x : Z) : List.length (be_bytes n x) = n.
Proof.
  revert x. induction n as [|k IH]; intros x; simpl.
  - reflexivity.
  - rewrite length_app, IH. simpl. lia.
Qed.

Lemma be_value_snoc (bs : list byte) (b : byte) :
  be_value (bs ++ [b]) = be_value bs * 256 + Z_of_byte b.
Proof.
  unfold be_value. rewrite fold_left_app. reflexivity.
Qed.

Lemma be_value_be_bytes (n : nat) (x : Z) :
  be_value (be_bytes n x) = x mod 256 ^ Z.of_nat n.
Proof.
  revert x. induction n as [|k IH]; intros x.
  - simpl. rewrite Z.mod_1_r. reflexivity.
  - cbn [be_bytes]. rewrite be_value_snoc, IH, Z_of_byte_of_Z.
    rewrite Nat2Z.inj_succ, Z.pow_succ_r by lia.
    assert (0 < 256 ^ Z.of_nat k) by (apply Z.pow_pos_nonneg; lia).
    rewrite (Z.rem_mul_r x 256 (256 ^ Z.of_nat k)) by lia.
    rewrite Z.mod_mod by lia. ring.
Qed.

Lemma U256Bytes_length (x : Z) : List.length (math.U256Bytes x) = 32%nat.
Proof. apply be_bytes_length. Qed.

Lemma U256Bytes_value (x : Z) : be_value (math.U256Bytes x) = x mod 2 ^ 256.
Proof.
  unfold math.U256Bytes, math.PaddedBigBytes, math.U256.
  rewrite be_value_be_bytes.
  change (256 ^ Z.of_nat 32) with (2 ^ 256).
  apply Z.mod_mod. lia.
Qed.

Lemma zeros_length (n : nat) : List.length (zeros n) = n.
Proof. apply repeat_length. Qed.

Lemma RightPadBytes_spec (slice : list byte) (l : Z) :
  common.RightPadBytes slice l
  = slice ++ zeros (Z.to_nat l - List.length slice).
Proof.
  unfold common.RightPadBytes, len.
  destruct (Z.leb_spec l (Z.of_nat (List.length slice))) as [H|H].
  - replace (Z.to_nat l - List.length slice)%nat with 0%nat by lia.
    simpl. rewrite app_nil_r. reflexivity.
  - f_equal. f_equal. lia.
Qed.

Lemma LeftPadBytes_spec (slice : list byte) (l : Z) :
  common.LeftPadBytes slice l
  = zeros (Z.to_nat l - List.length slice) ++ slice.
Proof.
  unfold common.LeftPadBytes, len.
  destruct (Z.leb_spec l (Z.of_nat (List.length slice))) as [H|H].
  - replace (Z.to_nat l - List.length slice)%nat with 0%nat by lia.
    reflexivity.
  - f_equal. f_equal. lia.
Qed.

Lemma RightPadBytes_length (slice : list byte) (l : Z) :
  len (common.RightPadBytes slice l) = Z.max l (len slice).
Proof.
  rewrite RightPadBytes_spec. unfold len.
  rewrite length_app, zeros_length. lia.
Qed.

Lemma LeftPadBytes_length (slice : list byte) (l : Z) :
  len (common.LeftPadBytes slice l) = Z.max l (len slice).
Proof.
  rewrite LeftPadBytes_spec. unfold len.
  rewrite length_app, zeros_length. lia.
Qed.

(** ** Machine arithmetic of the padded length *)

Lemma wrap_int_id (z : Z) : int_min <= z <= int_max -> wrap_int z = z.
Proof.
  unfold wrap_int, int_min, int_max. intros H.
  rewrite Z.mod_small by lia. lia.
Qed.

Lemma ceil_div_32 (l : Z) : ceil_div l 32 = (l + 31) / 32.
Proof.
  unfold ceil_div.
  pose proof (Z.div_mod l 32 ltac:(lia)) as E.
  pose proof (Z.mod_pos_bound l 32 ltac:(lia)) as B.
  destruct (Z.eqb_spec (l mod 32) 0) as [H|H].
  - apply (Z.div_unique _ _ _ 31); lia.
  - apply (Z.div_unique _ _ _ (l mod 32 - 1)); lia.
Qed.

Lemma padded_length_code (l : Z) :
  0 <= l <= int_max - 31 ->
  int_mul (int_div (int_add l 31) 32) 32 = padded_length l.
Proof.
  intros H. unfold int_add, int_div, int_mul, padded_length.
  rewrite ceil_div_32.
  unfold int_max in H.
  rewrite (wrap_int_id (l + 31)) by (unfold int_min, int_max; lia).
  rewrite Z.quot_div_nonneg by lia.
  assert (0 <= (l + 31) / 32 <= l + 31).
  { split; [apply Z.div_pos; lia|].
    apply Z.div_le_upper_bound; lia. }
  assert (0 <= (l + 31) / 32 * 32 <= l + 31).
  { split; [lia|]. rewrite Z.mul_comm. apply Z.mul_div_le. lia. }
  rewrite (wrap_int_id ((l + 31) / 32)) by (unfold int_min, int_max; lia).
  apply wrap_int_id. unfold int_min, int_max. lia.
Qed.

Lemma padded_length_bounds (l : Z) :
  0 <= l -> l <= padded_length l < l + 32 /\ padded_length l mod 32 = 0.
Proof.
  intros H. unfold padded_length. rewrite ceil_div_32.
  pose proof (Z.div_mod (l + 31) 32 ltac:(lia)) as E.
  pose proof (Z.mod_pos_bound (l + 31) 32 ltac:(lia)) as B.
  split; [lia|]. apply Z.mod_mul. lia.
Qed.

(** ** Base-10 numerals *)

Lemma digit_spec (c : ascii) :
  big.digit c = if is_digit c then Some (digit_value c) else None.
Proof.
  unfold big.digit, is_digit, digit_value.
  destruct (Nat.leb_spec 48 (nat_of_ascii c));
    destruct (Nat.leb_spec (nat_of_ascii c) 57);
    destruct (Z.leb_spec 48 (Z.of_nat (nat_of_ascii c)));
    destruct (Z.leb_spec (Z.of_nat (nat_of_ascii c)) 57);
    simpl; try reflexivity; lia.
Qed.

Lemma scan_spec (s : string) (acc : Z) :
  big.scan acc s
  = if all_digits s
    then Some (acc * 10 ^ Z.of_nat (String.length s) + digits_value s)
    else None.
Proof.
  revert acc. induction s as [|c r IH]; intros acc.
  - cbn [big.scan all_digits digits_value String.length].
    change (Z.of_nat 0) with 0. rewrite Z.pow_0_r. f_equal. ring.
  - cbn [big.scan all_digits digits_value String.length].
    rewrite digit_spec. destruct (is_digit c); [|reflexivity].
    rewrite IH. cbn [andb]. destruct (all_digits r); [|reflexivity].
    f_equal. rewrite Nat2Z.inj_succ, Z.pow_succ_r by lia. ring.
Qed.

Lemma scan_digits_spec (s : string) : big.scan_digits s = numeral s.
Proof.
  destruct s as [|c r]; [reflexivity|].
  unfold big.scan_digits, numeral. rewrite scan_spec.
  destruct (all_digits (String c r)); reflexivity.
Qed.

(** What [SetString] accepts is exactly a numeral with an optional sign. *)
Lemma SetString_spec (s : string) : big.SetString s = signed_decimal_literal s.
Proof.
  destruct s as [|c r]; [reflexivity|].
  unfold big.SetString, signed_decimal_literal.
  rewrite !scan_digits_spec.
  destruct c as [[] [] [] [] [] [] [] []]; reflexivity.
Qed.

Lemma decimal_literal_signed (s : string) (n : Z) :
  decimal_literal s = Some n -> signed_decimal_literal s = Some n.
Proof.
  destruct s as [|c r]; [discriminate|].
  destruct c as [[] [] [] [] [] [] [] []];
    try (intros H; exact H).
  unfold decimal_literal, numeral.
  cbn [all_digits]. discriminate.
Qed.

Arguments math.U256Bytes : simpl never.
Arguments math.PaddedBigBytes : simpl never.
Arguments common.RightPadBytes : simpl never.
Arguments common.LeftPadBytes : simpl never.
Arguments common.HexToAddress : simpl never.
Arguments big.SetString : simpl never.
Arguments String.eqb : simpl never.

(** ** The number packer *)

Lemma packNum_string_Earlier (s : string) :
  Earlier.packNum (reflect.Direct (VString s))
  = match signed_decimal_literal s with
    | Some n => Done (math.U256Bytes n, None)
    | None => Done ([], Some (ErrInvalidString s))
    end.
Proof.
  cbn. rewrite SetString_spec.
  destruct (signed_decimal_literal s); reflexivity.
Qed.

Lemma packNum_string_Extended (s : string) :
  Extended.packNum (reflect.Direct (VString s))
  = match signed_decimal_literal s with
    | Some n => Done (math.U256Bytes n, None)
    | None => Done ([], Some (ErrInvalidString s))
    end.
Proof.
  cbn. rewrite SetString_spec.
  destruct (signed_decimal_literal s); reflexivity.
Qed.

(** C1. For every supported numeric input (a machine integer of any width,
    signed or unsigned, a non-nil arbitrary-precision integer, or a decimal
    string) standing for the number [n], both revisions of [packNum] return
    without error exactly 32 bytes whose big-endian value is [n mod 2^256];
    for a negative [n] above [-2^256] that is the two's complement
    [2^256 + n].  No magnitude is rejected. *)
Theorem packNum_numeric_input (v : reflect.Value) (n : Z) :
  numeric_input v = Some n ->
  Earlier.packNum v = Done (math.U256Bytes n, None) /\
  Extended.packNum v = Done (math.U256Bytes n, None) /\
  List.length (math.U256Bytes n) = 32%nat /\
  be_value (math.U256Bytes n) = n mod 2 ^ 256 /\
  (- 2 ^ 256 <= n < 0 -> be_value (math.U256Bytes n) = 2 ^ 256 + n).
Proof.
  intros H.
  assert (Hpack : Earlier.packNum v = Done (math.U256Bytes n, None) /\
                  Extended.packNum v = Done (math.U256Bytes n, None)).
  { destruct v as [x|x]; [|discriminate].
    destruct x as [b|t m|t m|[m|]|s|b|b|b|k ty m]; try discriminate.
    - injection H as ->. destruct t; split; reflexivity.
    - injection H as ->. destruct t; split; reflexivity.
    - injection H as ->. split; reflexivity.
    - cbn in H. apply decimal_literal_signed in H.
      rewrite packNum_string_Earlier, packNum_string_Extended, H.
      split; reflexivity. }
  destruct Hpack as [H1 H2].
  split; [exact H1|]. split; [exact H2|].
  split; [apply U256Bytes_length|].
  split; [apply U256Bytes_value|].
  - intros Hn. rewrite U256Bytes_value.
    symmetry. apply (Z.mod_unique n (2 ^ 256) (-1)); lia.
Qed.

Lemma packNum_numeric_input_witness :
  numeric_input (reflect.Direct (VInt int8 (-1))) = Some (-1) /\
  Extended.packNum (reflect.Direct (VInt int8 (-1)))
  = Done (math.U256Bytes (-1), None).
Proof.
  split; [reflexivity|].
  apply (packNum_numeric_input (reflect.Direct (VInt int8 (-1))) (-1)).
  reflexivity.
Defined.

(** The spec's example: [-1] packs to 32 bytes of [0xFF]; and a number
    beyond 256 bits wraps around. *)
Example packNum_minus_one :
  Extended.packNum (reflect.Direct (VInt int (-1))) = Done (repeat xff 32, None)
  /\ Earlier.packNum (reflect.Direct (VInt int (-1))) = Done (repeat xff 32, None).
Proof. split; vm_compute; reflexivity. Qed.

Example packNum_wraps :
  Extended.packNum (reflect.Direct (VBigInt (Some (2 ^ 256 + 5))))
  = Done (zeros 31 ++ [x05], None).
Proof. vm_compute. reflexivity. Qed.

(** C5, as the code has it.  For every string handed to [packNum], in both
    revisions: a base-10 numeral with an optional leading sign, [-] or [+],
    is packed as the 32-byte word of its value; every other string fails
    with InvalidNumericString and no bytes. *)
Theorem packNum_decimal_string (s : string) :
  Earlier.packNum (reflect.Direct (VString s))
  = Extended.packNum (reflect.Direct (VString s)) /\
  Extended.packNum (reflect.Direct (VString s))
  = match signed_decimal_literal s with
    | Some n => Done (math.U256Bytes n, None)
    | None => Done ([], Some (ErrInvalidString s))
    end /\
  error_kind (ErrInvalidString s) = InvalidNumericString.
Proof.
  rewrite packNum_string_Earlier, packNum_string_Extended.
  repeat split.
Qed.

(** The string ["+1"] is not a numeral with an optional leading minus, yet
    it is packed, as the number 1, and not refused. *)
Lemma packNum_plus_sign_accepted :
  decimal_literal "+1" = None /\
  Earlier.packNum (reflect.Direct (VString "+1")) = Done (math.U256Bytes 1, None) /\
  Extended.packNum (reflect.Direct (VString "+1")) = Done (math.U256Bytes 1, None) /\
  ~ (decimal_literal "+1" = None ->
     Extended.packNum (reflect.Direct (VString "+1"))
     = Done ([], Some (ErrInvalidString "+1"))).
Proof.
  split; [reflexivity|]. split; [reflexivity|]. split; [reflexivity|].
  intros H. specialize (H eq_refl). cbn in H. discriminate H.
Qed.

(** The spec's examples. *)
Example packNum_123 :
  Extended.packNum (reflect.Direct (VString "123")) = Done (zeros 31 ++ [x7b], None).
Proof. vm_compute. reflexivity. Qed.

Example packNum_abc :
  Extended.packNum (reflect.Direct (VString "abc"))
  = Done ([], Some (ErrInvalidString "abc")).
Proof. vm_compute. reflexivity. Qed.

(** ** The length-prefixed packer *)

Lemma Done_bytes_inj (a b : list byte) (e e' : option error) :
  Done (a, e) = Done (b, e') -> a = b /\ e = e'.
Proof. intros H. injection H as H1 H2. split; assumption. Qed.

Lemma U256Bytes_small (l : Z) :
  0 <= l < 2 ^ 256 -> math.U256Bytes l = be_bytes 32 l.
Proof.
  intros H. unfold math.U256Bytes, math.PaddedBigBytes, math.U256.
  rewrite Z.mod_small by lia. reflexivity.
Qed.

Lemma packBytesSlice_Earlier (bytes : list byte) (l : Z) :
  Earlier.packBytesSlice bytes l
  = Done (math.U256Bytes l
            ++ common.RightPadBytes bytes
                 (int_mul (int_div (int_add l 31) 32) 32), None).
Proof. reflexivity. Qed.

Lemma packBytesSlice_Extended (bytes : list byte) (l : Z) :
  Extended.packBytesSlice bytes l
  = Done (math.U256Bytes l
            ++ common.RightPadBytes bytes
                 (int_mul (int_div (int_add l 31) 32) 32), None).
Proof. reflexivity. Qed.

Lemma packBytesSlice_in_range (p : list byte) (l : Z) :
  0 <= l <= int_max - 31 ->
  Earlier.packBytesSlice p l = Done (length_prefixed p l, None) /\
  Extended.packBytesSlice p l = Done (length_prefixed p l, None).
Proof.
  intros H.
  assert (Hl : 0 <= l < 2 ^ 256) by (unfold int_max in H; lia).
  rewrite packBytesSlice_Earlier, packBytesSlice_Extended.
  rewrite padded_length_code by exact H.
  rewrite RightPadBytes_spec, U256Bytes_small by exact Hl.
  split; reflexivity.
Qed.

(** C2, as the code has it.  For every payload [p] and every logical
    length [l] with [0 <= l <= MaxInt - 31], both revisions of
    [packBytesSlice] return the 32-byte word of [l] followed by [p]
    right-padded with zero bytes to [ceil(l/32)*32] bytes; a [p] longer than
    that is not truncated and follows the length word in full. *)
Theorem packBytesSlice_length_prefixed (p : list byte) (l : Z) :
  0 <= l <= int_max - 31 ->
  Earlier.packBytesSlice p l = Done (length_prefixed p l, None) /\
  Extended.packBytesSlice p l = Done (length_prefixed p l, None) /\
  be_value (firstn 32 (length_prefixed p l)) = l /\
  (padded_length l <= len p -> length_prefixed p l = be_bytes 32 l ++ p).
Proof.
  intros H.
  assert (Hl : 0 <= l < 2 ^ 256) by (unfold int_max in H; lia).
  destruct (packBytesSlice_in_range p l H) as [E1 E2].
  split; [exact E1|]. split; [exact E2|].
  unfold length_prefixed. split.
  - rewrite firstn_app, be_bytes_length, Nat.sub_diag, firstn_O, app_nil_r.
    rewrite firstn_all2 by (rewrite be_bytes_length; lia).
    rewrite be_value_be_bytes. change (256 ^ Z.of_nat 32) with (2 ^ 256).
    apply Z.mod_small. exact Hl.
  - intros Hp. unfold len in Hp.
    replace (Z.to_nat (padded_length l) - List.length p)%nat with 0%nat by lia.
    cbn [zeros repeat]. rewrite app_nil_r. reflexivity.
Qed.

Lemma packBytesSlice_length_prefixed_witness :
  0 <= 2 <= int_max - 31 /\
  Extended.packBytesSlice [x68; x69] 2
  = Done (length_prefixed [x68; x69] 2, None).
Proof.
  assert (H : 0 <= 2 <= int_max - 31) by (unfold int_max; lia).
  split; [exact H|].
  apply (packBytesSlice_length_prefixed [x68; x69] 2 H).
Defined.

(** The spec's example: ["hi"] with length 2 packs to 64 bytes. *)
Example packBytesSlice_hi :
  Extended.packBytesSlice [x68; x69] 2
  = Done (zeros 31 ++ [x02] ++ [x68; x69] ++ zeros 30, None).
Proof. vm_compute. reflexivity. Qed.

(** At [l = MaxInt] the sum [l + 31] wraps around to a negative number, no
    padding is added, and the result is the length word alone: not the
    payload padded to [ceil(l/32)*32 = 2^63] bytes. *)
Lemma packBytesSlice_wraps_at_max_int :
  Extended.packBytesSlice [] int_max = Done (math.U256Bytes int_max, None) /\
  Earlier.packBytesSlice [] int_max = Done (math.U256Bytes int_max, None) /\
  ~ (0 <= int_max ->
     Extended.packBytesSlice [] int_max
     = Done (length_prefixed [] int_max, None)).
Proof.
  assert (E : Extended.packBytesSlice [] int_max
              = Done (math.U256Bytes int_max, None))
    by (vm_compute; reflexivity).
  split; [exact E|]. split; [exact E|].
  intros H. specialize (H ltac:(unfold int_max; lia)).
  rewrite E in H. apply Done_bytes_inj in H. destruct H as [H _].
  apply (f_equal (@List.length byte)) in H.
  unfold length_prefixed in H.
  rewrite U256Bytes_length, !length_app, be_bytes_length, zeros_length in H.
  assert (P : padded_length int_max = 2 ^ 63) by (vm_compute; reflexivity).
  rewrite P in H. cbn [List.length] in H. lia.
Qed.

(** ** The element packer *)

Lemma list_byte_of_string_length (s : string) :
  List.length (list_byte_of_string s) = String.length s.
Proof.
  unfold list_byte_of_string. rewrite length_map.
  induction s as [|c r IH]; simpl; [reflexivity|]. rewrite IH. reflexivity.
Qed.

Lemma BytesToAddress_length (b : list byte) :
  List.length (common.BytesToAddress b) = 20%nat.
Proof.
  unfold common.BytesToAddress, common.AddressLength.
  rewrite length_app, zeros_length, length_skipn. lia.
Qed.

Lemma HexToAddress_length (s : string) : len (common.HexToAddress s) = 20.
Proof.
  unfold len, common.HexToAddress. rewrite BytesToAddress_length. reflexivity.
Qed.

Arguments total_failure : simpl never.
Arguments aligned : simpl never.

Lemma total_failure_ok (bs : list byte) : total_failure (Done (bs, None)).
Proof. exact I. Qed.

Lemma total_failure_err (e : error) : total_failure (Done ([], Some e)).
Proof. reflexivity. Qed.

Lemma total_failure_panic : total_failure Panic.
Proof. exact I. Qed.

Lemma aligned_nil (e : option error) : aligned (Done ([], e)).
Proof. reflexivity. Qed.

Lemma aligned_panic : aligned Panic.
Proof. exact I. Qed.

Lemma aligned_U256Bytes (n : Z) (e : option error) :
  aligned (Done (math.U256Bytes n, e)).
Proof. unfold aligned, len. rewrite U256Bytes_length. reflexivity. Qed.

Lemma aligned_PaddedBigBytes (n : Z) (e : option error) :
  aligned (Done (math.PaddedBigBytes n 32, e)).
Proof.
  unfold aligned, len, math.PaddedBigBytes. rewrite be_bytes_length.
  reflexivity.
Qed.

Lemma aligned_LeftPadBytes (b : list byte) (e : option error) :
  len b <= 32 -> aligned (Done (common.LeftPadBytes b 32, e)).
Proof.
  intros H. unfold aligned. rewrite LeftPadBytes_length.
  rewrite Z.max_l by exact H. reflexivity.
Qed.

Lemma aligned_RightPadBytes (b : list byte) (e : option error) :
  len b <= 32 -> aligned (Done (common.RightPadBytes b 32, e)).
Proof.
  intros H. unfold aligned. rewrite RightPadBytes_length.
  rewrite Z.max_l by exact H. reflexivity.
Qed.

Lemma length_prefixed_aligned (p : list byte) (l : Z) :
  0 <= l <= int_max - 31 -> len p <= padded_length l ->
  aligned (Done (math.U256Bytes l
                   ++ common.RightPadBytes p
                        (int_mul (int_div (int_add l 31) 32) 32), None)).
Proof.
  intros Hl Hp. unfold aligned.
  rewrite padded_length_code by exact Hl.
  unfold len in *. rewrite length_app, U256Bytes_length, Nat2Z.inj_add.
  fold (len (common.RightPadBytes p (padded_length l))).
  rewrite RightPadBytes_length. unfold len.
  rewrite Z.max_l by exact Hp.
  destruct (padded_length_bounds l ltac:(lia)) as [_ Hm].
  change (Z.of_nat 32) with (1 * 32).
  rewrite Z.add_comm, Z.mod_add by lia. exact Hm.
Qed.

Lemma payload_aligned (p : list byte) :
  len p <= int_max - 31 ->
  aligned (Done (math.U256Bytes (len p)
                   ++ common.RightPadBytes p
                        (int_mul (int_div (int_add (len p) 31) 32) 32), None)).
Proof.
  intros H. assert (0 <= len p) by (unfold len; lia).
  apply length_prefixed_aligned; [lia|].
  apply padded_length_bounds. lia.
Qed.

Lemma string_payload_aligned (s : string) :
  Z.of_nat (String.length s) <= int_max - 31 ->
  aligned (Done (math.U256Bytes (Z.of_nat (String.length s))
                   ++ common.RightPadBytes (list_byte_of_string s)
                        (int_mul (int_div (int_add (Z.of_nat (String.length s)) 31) 32) 32),
                 None)).
Proof.
  intros H. rewrite <- (list_byte_of_string_length s). apply payload_aligned.
  unfold len. rewrite list_byte_of_string_length. exact H.
Qed.

Create HintDb packers.
#[local] Hint Resolve total_failure_ok total_failure_err total_failure_panic
  aligned_nil aligned_panic aligned_U256Bytes aligned_PaddedBigBytes
  aligned_LeftPadBytes aligned_RightPadBytes payload_aligned
  string_payload_aligned : packers.
#[local] Hint Extern 1 (len (common.HexToAddress _) <= 32) =>
  rewrite HexToAddress_length; lia : packers.

Section ElementPacker.

Variable Hex : list byte -> string.

Lemma packNum_total_failure (v : reflect.Value) :
  total_failure (Earlier.packNum v) /\ total_failure (Extended.packNum v).
Proof.
  each_value v; cbn; break_goal; auto with packers.
Qed.

Lemma packElement_total_failure_Earlier (t : ABIType) (v : reflect.Value) :
  total_failure (Earlier.packElement Hex t v).
Proof.
  destruct t as [[]]; each_value v; cbn; break_goal; auto with packers.
Qed.

Lemma packElement_total_failure_Extended (t : ABIType) (v : reflect.Value) :
  total_failure (Extended.packElement Hex t v).
Proof.
  destruct t as [[]]; each_value v; cbn; break_goal; auto with packers.
Qed.

Lemma total_failure_inv (r : outcome packed) (bs : list byte) (e : error) :
  total_failure r -> r = Done (bs, Some e) -> bs = [].
Proof. intros H ->. exact H. Qed.

(** C9. In both revisions, for each of the three packers and every input:
    whenever the call returns an error, the bytes returned with it are
    empty. *)
Theorem errors_come_with_no_bytes
  (t : ABIType) (v : reflect.Value) (p : list byte) (l : Z)
  (r : outcome packed) (bs : list byte) (e : error) :
  r = Earlier.packNum v \/ r = Extended.packNum v \/
  r = Earlier.packBytesSlice p l \/ r = Extended.packBytesSlice p l \/
  r = Earlier.packElement Hex t v \/ r = Extended.packElement Hex t v ->
  r = Done (bs, Some e) ->
  bs = [].
Proof.
  intros Hr. apply total_failure_inv.
  destruct Hr as [-> | [-> | [-> | [-> | [-> | ->]]]]].
  - apply packNum_total_failure.
  - apply packNum_total_failure.
  - rewrite packBytesSlice_Earlier. auto with packers.
  - rewrite packBytesSlice_Extended. auto with packers.
  - apply packElement_total_failure_Earlier.
  - apply packElement_total_failure_Extended.
Qed.





(** Raw bytes under the address tag are left-padded, whatever their
    number; under the fixed-bytes and function tags, right-padded. *)
Lemma packElement_address_raw (v : reflect.Value) (b : list byte) :
  raw_bytes v = Some b ->
  Earlier.packElement Hex (MkType AddressTy) v
  = Done (common.LeftPadBytes b 32, None) /\
  Extended.packElement Hex (MkType AddressTy) v
  = Done (common.LeftPadBytes b 32, None).
Proof.
  intros H. destruct v as [x|x]; [|discriminate].
  destruct x; try discriminate; injection H as ->; split; reflexivity.
Qed.

Lemma packElement_fixed_raw (v : reflect.Value) (b : list byte) :
  raw_bytes v = Some b ->
  Earlier.packElement Hex (MkType FixedBytesTy) v
  = Done (common.RightPadBytes b 32, None) /\
  Extended.packElement Hex (MkType FixedBytesTy) v
  = Done (common.RightPadBytes b 32, None) /\
  Earlier.packElement Hex (MkType FunctionTy) v
  = Done (common.RightPadBytes b 32, None) /\
  Extended.packElement Hex (MkType FunctionTy) v
  = Done (common.RightPadBytes b 32, None).
Proof.
  intros H. destruct v as [x|x]; [|discriminate].
  destruct x; try discriminate; injection H as ->; repeat split.
Qed.

(** C7. In both revisions [packElement] puts a 20-byte address value (a
    byte slice, a byte array or an address) behind 12 zero bytes, in the
    low-order bytes of the word, whereas under the fixed-bytes and
    function tags the byte value comes first and the zero bytes follow
    it. *)
Theorem address_left_fixed_bytes_right (v : reflect.Value) (b : list byte) :
  raw_bytes v = Some b ->
  (List.length b = 20%nat ->
   Earlier.packElement Hex (MkType AddressTy) v = Done (zeros 12 ++ b, None) /\
   Extended.packElement Hex (MkType AddressTy) v = Done (zeros 12 ++ b, None)) /\
  Earlier.packElement Hex (MkType FixedBytesTy) v
  = Done (b ++ zeros (32 - List.length b), None) /\
  Extended.packElement Hex (MkType FixedBytesTy) v
  = Done (b ++ zeros (32 - List.length b), None) /\
  Earlier.packElement Hex (MkType FunctionTy) v
  = Done (b ++ zeros (32 - List.length b), None) /\
  Extended.packElement Hex (MkType FunctionTy) v
  = Done (b ++ zeros (32 - List.length b), None).
Proof.
  intros H. split.
  - intros Hb. destruct (packElement_address_raw v b H) as [-> ->].
    rewrite LeftPadBytes_spec, Hb. split; reflexivity.
  - destruct (packElement_fixed_raw v b H) as (-> & -> & -> & ->).
    rewrite RightPadBytes_spec. repeat split.
Qed.

(** C10. In both revisions [packElement] with the address tag checks no
    length: a byte slice or a byte array of any length up to 32 is
    accepted and returned left-padded with zero bytes to 32 bytes. *)
Theorem address_tag_checks_no_length (v : reflect.Value) (b : list byte) :
  v = reflect.Direct (VBytes b) \/ v = reflect.Direct (VArray b) ->
  (List.length b <= 32)%nat ->
  Earlier.packElement Hex (MkType AddressTy) v
  = Done (zeros (32 - List.length b) ++ b, None) /\
  Extended.packElement Hex (MkType AddressTy) v
  = Done (zeros (32 - List.length b) ++ b, None) /\
  List.length (zeros (32 - List.length b) ++ b) = 32%nat.
Proof.
  intros Hv Hb.
  assert (H : raw_bytes v = Some b) by (destruct Hv; subst; reflexivity).
  destruct (packElement_address_raw v b H) as [-> ->].
  rewrite LeftPadBytes_spec. repeat split.
  rewrite length_app, zeros_length. lia.
Qed.

(** C4. In both revisions, [packElement] with the address tag and a
    string [s]: when [s] is not the literal zero address and the canonical
    rendering of the parsed address differs from [s], the call fails with
    InvalidAddress and no bytes; the literal zero address packs to the
    all-zero word, whatever its rendering.  (A string that passes the
    comparison packs to its parsed address, left-padded.) *)
Theorem packElement_address_string (s : string) :
  (s <> zero_address_hex -> Hex (common.HexToAddress s) <> s ->
   Earlier.packElement Hex (MkType AddressTy) (reflect.Direct (VString s))
   = Done ([], Some (ErrInvalidAddress s)) /\
   Extended.packElement Hex (MkType AddressTy) (reflect.Direct (VString s))
   = Done ([], Some (ErrInvalidAddress s)) /\
   error_kind (ErrInvalidAddress s) = InvalidAddress) /\
  (s = zero_address_hex ->
   Earlier.packElement Hex (MkType AddressTy) (reflect.Direct (VString s))
   = Done (zeros 32, None) /\
   Extended.packElement Hex (MkType AddressTy) (reflect.Direct (VString s))
   = Done (zeros 32, None)) /\
  (s <> zero_address_hex -> Hex (common.HexToAddress s) = s ->
   Earlier.packElement Hex (MkType AddressTy) (reflect.Direct (VString s))
   = Done (zeros 12 ++ common.HexToAddress s, None) /\
   Extended.packElement Hex (MkType AddressTy) (reflect.Direct (VString s))
   = Done (zeros 12 ++ common.HexToAddress s, None)).
Proof.
  split; [|split].
  - intros Hz Hh.
    apply String.eqb_neq in Hz. apply String.eqb_neq in Hh.
    cbn. rewrite Hz. cbn. rewrite Hh. cbn. repeat split.
  - intros ->. split; vm_compute; reflexivity.
  - intros Hz Hh.
    apply String.eqb_neq in Hz. apply String.eqb_eq in Hh.
    cbn. rewrite Hz. cbn. rewrite Hh. cbn.
    rewrite LeftPadBytes_spec.
    pose proof (HexToAddress_length s) as Hl. unfold len in Hl.
    replace (Z.to_nat 32 - List.length (common.HexToAddress s))%nat
      with 12%nat by lia.
    split; reflexivity.
Qed.

(** C8, as the code has it.  In the extended revision, [packElement] with
    the string tag fails with TypeMismatch and no bytes for every value
    that does not hold a string; for a value holding a string (of at most
    [MaxInt - 31] bytes) it returns the length-prefixed encoding whose
    logical length is the string's byte length, and so does the earlier
    revision when handed the string itself. *)
Theorem packElement_string_tag (v : reflect.Value) :
  (held_string v = None ->
   Extended.packElement Hex (MkType StringTy) v
   = Done ([], Some ErrStringNotString) /\
   error_kind ErrStringNotString = TypeMismatch) /\
  (forall s, held_string v = Some s ->
   Z.of_nat (String.length s) <= int_max - 31 ->
   Extended.packElement Hex (MkType StringTy) v
   = Done (length_prefixed (list_byte_of_string s)
             (Z.of_nat (String.length s)), None) /\
   (v = reflect.Direct (VString s) ->
    Earlier.packElement Hex (MkType StringTy) v
    = Done (length_prefixed (list_byte_of_string s)
              (Z.of_nat (String.length s)), None))).
Proof.
  split.
  - intros H. split; [|reflexivity].
    unfold held_string in H.
    destruct v as [x|[x|]]; cbn in H; try destruct x; try discriminate;
      reflexivity.
  - intros s H Hl.
    assert (Hl' : 0 <= Z.of_nat (String.length s) <= int_max - 31) by lia.
    destruct (packBytesSlice_in_range (list_byte_of_string s) _ Hl')
      as [E1 E2].
    split.
    + unfold held_string in H.
      destruct v as [x|[x|]]; cbn in H; try destruct x; try discriminate;
        injection H as ->; exact E2.
    + intros ->. exact E1.
Qed.


End ElementPacker.

(** ** Instances at concrete inputs *)

Lemma errors_come_with_no_bytes_witness :
  exists (bs : list byte) (e : error),
    Extended.packNum (reflect.Direct (VString "abc")) = Done (bs, Some e) /\
    bs = [].
Proof.
  exists [], (ErrInvalidString "abc").
  assert (H : Extended.packNum (reflect.Direct (VString "abc"))
              = Done ([], Some (ErrInvalidString "abc")))
    by (vm_compute; reflexivity).
  split; [exact H|].
  exact (errors_come_with_no_bytes lower_hex (MkType IntTy)
           (reflect.Direct (VString "abc")) [] 0
           (Extended.packNum (reflect.Direct (VString "abc")))
           [] (ErrInvalidString "abc")
           (or_intror (or_introl eq_refl)) H).
Defined.


Lemma address_left_fixed_bytes_right_witness :
  raw_bytes (reflect.Direct (VAddress (repeat xff 20))) = Some (repeat xff 20) /\
  Extended.packElement lower_hex (MkType AddressTy)
    (reflect.Direct (VAddress (repeat xff 20)))
  = Done (zeros 12 ++ repeat xff 20, None).
Proof.
  split; [reflexivity|].
  apply (address_left_fixed_bytes_right lower_hex
           (reflect.Direct (VAddress (repeat xff 20))) (repeat xff 20));
    reflexivity.
Defined.

Lemma address_tag_checks_no_length_witness :
  (List.length [x01; x02] <= 32)%nat /\
  Extended.packElement lower_hex (MkType AddressTy)
    (reflect.Direct (VArray [x01; x02]))
  = Done (zeros 30 ++ [x01; x02], None).
Proof.
  assert (H : (List.length [x01; x02] <= 32)%nat) by (simpl; lia).
  split; [exact H|].
  apply (address_tag_checks_no_length lower_hex
           (reflect.Direct (VArray [x01; x02])) [x01; x02]
           (or_intror eq_refl) H).
Defined.

Lemma packElement_address_string_witness :
  "0x01" <> zero_address_hex /\
  lower_hex (common.HexToAddress "0x01") <> "0x01" /\
  Extended.packElement lower_hex (MkType AddressTy)
    (reflect.Direct (VString "0x01"))
  = Done ([], Some (ErrInvalidAddress "0x01")).
Proof.
  assert (H1 : "0x01" <> zero_address_hex) by (vm_compute; discriminate).
  assert (H2 : lower_hex (common.HexToAddress "0x01") <> "0x01")
    by (vm_compute; discriminate).
  split; [exact H1|]. split; [exact H2|].
  apply (proj1 (packElement_address_string lower_hex "0x01") H1 H2).
Defined.

Lemma packElement_string_tag_witness :
  held_string (reflect.Direct (VBool true)) = None /\
  Extended.packElement lower_hex (MkType StringTy) (reflect.Direct (VBool true))
  = Done ([], Some ErrStringNotString).
Proof.
  split; [reflexivity|].
  apply (proj1 (packElement_string_tag lower_hex (reflect.Direct (VBool true)))).
  reflexivity.
Defined.


(** The spec's examples for the element packer. *)
Example packElement_bool :
  Extended.packElement lower_hex (MkType BoolTy) (reflect.Direct (VBool true))
  = Done (zeros 31 ++ [x01], None) /\
  Extended.packElement lower_hex (MkType BoolTy) (reflect.Direct (VBool false))
  = Done (zeros 32, None).
Proof. split; vm_compute; reflexivity. Qed.

Example packElement_fixed_bytes :
  Extended.packElement lower_hex (MkType FixedBytesTy)
    (reflect.Direct (VArray [x01; x02]))
  = Done ([x01; x02] ++ zeros 30, None).
Proof. vm_compute. reflexivity. Qed.

(** ** Where the code departs from the specification *)


(** The earlier revision does not check that a string tag comes with a
    string: a byte slice is packed as the text reflection prints for it,
    and a value without a length makes the call panic. *)
Lemma earlier_string_tag_unchecked :
  held_string (reflect.Direct (VBytes [])) = None /\
  Earlier.packElement lower_hex (MkType StringTy) (reflect.Direct (VBytes []))
  = Done (zeros 32 ++ list_byte_of_string "<[]uint8 Value>", None) /\
  Earlier.packElement lower_hex (MkType StringTy) (reflect.Direct (VBool true))
  = Panic /\
  ~ (held_string (reflect.Direct (VBytes [])) = None ->
     Earlier.packElement lower_hex (MkType StringTy) (reflect.Direct (VBytes []))
     = Done ([], Some ErrStringNotString)).
Proof.
  split; [reflexivity|].
  split; [vm_compute; reflexivity|].
  split; [reflexivity|].
  intros H. specialize (H eq_refl). vm_compute in H. discriminate H.
Qed.


(** * Further properties of the packers *)

(** ** [toBigInt] and values of kind [Interface] *)

(** X1. [toBigInt] yields [n] exactly for an [int] or an [int64] of value
    [n] and for a string that is a base-10 numeral of value [n] with an
    optional sign; every failure is the one error "Cannot convert". *)
Theorem toBigInt_converts (x : any) (n : Z) :
  (Extended.toBigInt x = inl n <->
   x = Some (VInt int n) \/ x = Some (VInt int64 n) \/
   exists s, x = Some (VString s) /\ signed_decimal_literal s = Some n) /\
  (forall e, Extended.toBigInt x = inr e -> e = ErrCannotConvert).
Proof.
  split; [split|].
  - destruct x as [[b|[] m|t m|p|s|b|b|b|k ty m]|]; cbn;
      rewrite ?SetString_spec; try discriminate.
    + intros H. injection H as ->. left. reflexivity.
    + intros H. injection H as ->. right. left. reflexivity.
    + destruct (signed_decimal_literal s) as [m|] eqn:E; [|discriminate].
      intros H. injection H as ->. right. right. exists s. split; [reflexivity|exact E].
  - intros [-> | [-> | (s & -> & E)]]; cbn; rewrite ?SetString_spec, ?E;
      reflexivity.
  - intros e.
    destruct x as [[b|[] m|t m|p|s|b|b|b|k ty m]|]; cbn;
      rewrite ?SetString_spec; try discriminate;
      try (intros H; injection H as <-; reflexivity).
    destruct (signed_decimal_literal s); [discriminate|].
    intros H; injection H as <-; reflexivity.
Qed.

Lemma packNum_Boxed_Extended (x : any) :
  Extended.packNum (reflect.Boxed x)
  = match x with
    | Some (VBigInt (Some n)) => Done (math.U256Bytes n, None)
    | Some (VBigInt None) => Panic
    | _ => match convertible_number x with
           | Some n => Done (math.U256Bytes n, None)
           | None => Done ([], Some (ErrInvalidType reflect.Interface
                                       ErrCannotConvert))
           end
    end.
Proof.
  destruct x as [[b|[] m|t m|[m|]|s|b|b|b|k ty m]|]; cbn;
    rewrite ?SetString_spec; try reflexivity.
  destruct (signed_decimal_literal s); reflexivity.
Qed.

(** X2. A number held in a value of kind [Interface] (a non-nil
    [*big.Int], an [int], an [int64] or a signed base-10 numeral) is
    refused by the earlier [packNum], whatever it is, and packed by the
    extended one like the number itself. *)
Theorem packNum_boxed_number (x : any) (n : Z) :
  boxed_number x = Some n ->
  Earlier.packNum (reflect.Boxed x)
  = Done ([], Some (ErrUnknownKind reflect.Interface)) /\
  Extended.packNum (reflect.Boxed x) = Done (math.U256Bytes n, None) /\
  be_value (math.U256Bytes n) = n mod 2 ^ 256.
Proof.
  intros H. split; [reflexivity|]. split; [|apply U256Bytes_value].
  rewrite packNum_Boxed_Extended.
  destruct x as [[b|t m|t m|[m|]|s|b|b|b|k ty m]|]; cbn in H;
    try discriminate H; try (injection H as ->; reflexivity).
  - destruct t; try discriminate H; injection H as ->; reflexivity.
  - cbn. rewrite H. reflexivity.
Qed.

(** X3. The conversion knows [int] and [int64] only: an integer of any
    other width, signed or unsigned, is packed by the extended [packNum]
    when given directly, and refused with the "invalid type" error when
    held in a value of kind [Interface]. *)
Theorem packNum_boxed_narrow_integer (x : GoValue) (n : Z) :
  narrow_integer x = Some n ->
  Extended.packNum (reflect.Direct x) = Done (math.U256Bytes n, None) /\
  Extended.packNum (reflect.Boxed (Some x))
  = Done ([], Some (ErrInvalidType reflect.Interface ErrCannotConvert)).
Proof.
  intros H.
  destruct x as [b|[] m|[] m|p|s|b|b|b|k ty m]; cbn in H;
    try discriminate H; injection H as ->; split; reflexivity.
Qed.


(** ** The length-prefixed packer at any length *)

Lemma padded_target_nonpositive (l : Z) :
  int_min <= l <= 0 -> int_mul (int_div (int_add l 31) 32) 32 <= 0.
Proof.
  intros H. unfold int_add, int_div, int_mul.
  unfold int_min in H.
  rewrite (wrap_int_id (l + 31)) by (unfold int_min, int_max; lia).
  assert (Q : - 2 ^ 63 <= Z.quot (l + 31) 32 * 32 <= 0 /\
              - 2 ^ 63 <= Z.quot (l + 31) 32 <= 0)
    by (Z.quot_rem_to_equations; lia).
  rewrite (wrap_int_id (Z.quot (l + 31) 32)) by (unfold int_min, int_max; lia).
  rewrite wrap_int_id by (unfold int_min, int_max; lia).
  lia.
Qed.

(** X5. [packBytesSlice] never fails and never truncates, whatever the
    length it is given: the result is the word of [l] (read as the number
    [l mod 2^256]), then the whole payload, then zero bytes only; a length
    that is zero or negative is not refused and adds no padding at all. *)
Theorem packBytesSlice_any_length (p : list byte) (l : Z) :
  exists k : nat,
    Earlier.packBytesSlice p l = Done (math.U256Bytes l ++ p ++ zeros k, None) /\
    Extended.packBytesSlice p l = Done (math.U256Bytes l ++ p ++ zeros k, None) /\
    be_value (math.U256Bytes l) = l mod 2 ^ 256 /\
    (int_min <= l <= 0 -> k = 0%nat).
Proof.
  exists (Z.to_nat (int_mul (int_div (int_add l 31) 32) 32) - List.length p)%nat.
  rewrite packBytesSlice_Earlier, packBytesSlice_Extended, RightPadBytes_spec.
  split; [reflexivity|]. split; [reflexivity|].
  split; [apply U256Bytes_value|].
  intros H. pose proof (padded_target_nonpositive l H). lia.
Qed.

(** ** Reading dynamic elements back *)

Lemma unpack_length_prefixed (p : list byte) :
  len p <= int_max - 31 ->
  unpack_length (length_prefixed p (len p)) = len p /\
  unpack_payload (length_prefixed p (len p)) = p /\
  len (length_prefixed p (len p)) = 32 + padded_length (len p).
Proof.
  intros H. assert (H0 : 0 <= len p) by (unfold len; lia).
  assert (Hl : 0 <= len p < 2 ^ 256) by (unfold int_max in H; lia).
  assert (E : unpack_length (length_prefixed p (len p)) = len p).
  { unfold unpack_length, length_prefixed.
    rewrite firstn_app, be_bytes_length, Nat.sub_diag, firstn_O, app_nil_r.
    rewrite firstn_all2 by (rewrite be_bytes_length; lia).
    rewrite be_value_be_bytes. change (256 ^ Z.of_nat 32) with (2 ^ 256).
    apply Z.mod_small. exact Hl. }
  split; [exact E|]. split.
  - unfold unpack_payload. rewrite E. unfold length_prefixed.
    rewrite skipn_app, be_bytes_length, Nat.sub_diag, skipn_O.
    rewrite skipn_all2 by (rewrite be_bytes_length; lia).
    cbn [app]. unfold len. rewrite Nat2Z.id.
    rewrite firstn_app, Nat.sub_diag, firstn_O, app_nil_r.
    apply firstn_all.
  - unfold length_prefixed, len.
    rewrite !length_app, be_bytes_length, zeros_length.
    destruct (padded_length_bounds (len p) H0) as [[B _] _].
    unfold len in B. lia.
Qed.

Section DynamicElements.

Variable Hex : list byte -> string.

(** X6. A byte slice, byte array or address of at most [MaxInt - 31] bytes
    under the bytes tag reads back: both revisions return, without error,
    [1 + ceil(l/32)] words whose length word gives the number [l] of bytes
    and whose next [l] bytes are the bytes given. *)
Theorem bytes_element_reads_back (v : reflect.Value) (b : list byte) :
  raw_bytes v = Some b ->
  len b <= int_max - 31 ->
  exists bs : list byte,
    Earlier.packElement Hex (MkType BytesTy) v = Done (bs, None) /\
    Extended.packElement Hex (MkType BytesTy) v = Done (bs, None) /\
    unpack_length bs = len b /\
    unpack_payload bs = b /\
    len bs = 32 + padded_length (len b).
Proof.
  intros Hr Hl. exists (length_prefixed b (len b)).
  assert (H0 : 0 <= len b <= int_max - 31) by (unfold len in *; lia).
  destruct (packBytesSlice_in_range b (len b) H0) as [E1 E2].
  destruct (unpack_length_prefixed b Hl) as (U1 & U2 & U3).
  split; [|split; [|split; [exact U1|split; [exact U2|exact U3]]]];
    (destruct v as [x|x]; [|discriminate]);
    destruct x; try discriminate; injection Hr as ->; assumption.
Qed.

(** X7. A string of at most [MaxInt - 31] bytes under the string tag reads
    back: both revisions return, without error, words whose length word
    gives the string's byte length and whose payload is the string. *)
Theorem string_element_reads_back (s : string) :
  Z.of_nat (String.length s) <= int_max - 31 ->
  exists bs : list byte,
    Earlier.packElement Hex (MkType StringTy) (reflect.Direct (VString s))
    = Done (bs, None) /\
    Extended.packElement Hex (MkType StringTy) (reflect.Direct (VString s))
    = Done (bs, None) /\
    unpack_length bs = Z.of_nat (String.length s) /\
    string_of_list_byte (unpack_payload bs) = s.
Proof.
  intros Hl.
  assert (L : len (list_byte_of_string s) = Z.of_nat (String.length s))
    by (unfold len; rewrite list_byte_of_string_length; reflexivity).
  exists (length_prefixed (list_byte_of_string s) (len (list_byte_of_string s))).
  assert (Hl' : len (list_byte_of_string s) <= int_max - 31) by lia.
  assert (H0 : 0 <= len (list_byte_of_string s) <= int_max - 31) by lia.
  destruct (packBytesSlice_in_range (list_byte_of_string s) _ H0) as [E1 E2].
  destruct (unpack_length_prefixed (list_byte_of_string s) Hl') as (U1 & U2 & _).
  rewrite U1, U2. rewrite L in E1, E2 |- *.
  split; [exact E1|]. split; [exact E2|]. split; [reflexivity|].
  apply string_of_list_byte_of_string.
Qed.

(** ** What each tag does with each value *)

(** X8. The bytes tag, in both revisions: a byte slice, byte array or
    address is packed with its own length; an array of anything else makes
    the call panic; every other value, a byte slice held in an interface
    included, fails with "Bytes type is neither slice nor array". *)
Theorem bytes_tag_cases (v : reflect.Value) :
  Earlier.packElement Hex (MkType BytesTy) v
  = Extended.packElement Hex (MkType BytesTy) v /\
  Extended.packElement Hex (MkType BytesTy) v
  = match raw_bytes v with
    | Some b => Extended.packBytesSlice b (len b)
    | None =>
        match Value.Kind v with
        | reflect.Array => Panic
        | _ => Done ([], Some ErrBytesNotSlice)
        end
    end.
Proof.
  each_value v; split; reflexivity.
Qed.

(** X9. The address tag in the extended revision, for a value that holds
    no string: raw bytes, and a byte slice or an address held in an
    interface, are left-padded; an array of anything else makes the call
    panic; every other value, a byte array held in an interface included,
    fails with the "invalid address" error carrying the value. *)
Theorem address_tag_cases_Extended (v : reflect.Value) :
  held_string v = None ->
  Extended.packElement Hex (MkType AddressTy) v
  = match address_bytes v with
    | Some b => Done (common.LeftPadBytes b 32, None)
    | None =>
        match Value.Kind v with
        | reflect.Array => Panic
        | _ => Done ([], Some (ErrNotAnAddress (Value.Interface v)))
        end
    end.
Proof.
  intros H. each_value v; cbn in H; try discriminate H; reflexivity.
Qed.

(** X10. The address tag in the earlier revision, for a value that is not
    a string: raw bytes are left-padded, and every other value makes the
    call panic; no error is returned. *)
Theorem address_tag_cases_Earlier (v : reflect.Value) :
  Value.Kind v <> reflect.String ->
  Earlier.packElement Hex (MkType AddressTy) v
  = match raw_bytes v with
    | Some b => Done (common.LeftPadBytes b 32, None)
    | None => Panic
    end.
Proof.
  intros H. each_value v; cbn in H; try (exfalso; apply H; reflexivity);
    reflexivity.
Qed.

(** X11. Under the bool, fixed-bytes and function tags no revision ever
    returns an error: a bool packs to the word of 0 or 1, raw bytes are
    right-padded, and every value of another shape makes the call panic. *)
Theorem static_tags_never_fail (t : ABIType) (v : reflect.Value) :
  T t = BoolTy \/ T t = FixedBytesTy \/ T t = FunctionTy ->
  Earlier.packElement Hex t v = Extended.packElement Hex t v /\
  no_error (Extended.packElement Hex t v) /\
  (Extended.packElement Hex t v = Panic <->
   match T t with
   | BoolTy => forall b, v <> reflect.Direct (VBool b)
   | _ => raw_bytes v = None
   end) /\
  (forall b, T t = BoolTy -> v = reflect.Direct (VBool b) ->
   exists bs, Extended.packElement Hex t v = Done (bs, None) /\
              List.length bs = 32%nat /\
              be_value bs = if b then 1 else 0).
Proof.
  intros Ht. destruct t as [tag]. cbn in Ht.
  split; [|split; [|split]].
  - destruct Ht as [-> | [-> | ->]]; reflexivity.
  - destruct Ht as [-> | [-> | ->]]; each_value v; cbn; break_goal; exact I.
  - destruct Ht as [-> | [-> | ->]]; each_value v; cbn; break_goal;
      split; intros H; try discriminate H; try reflexivity;
      try (exfalso; eapply H; reflexivity);
      try (intros ? E; discriminate E).
  - intros b Hb ->. cbn in Hb. subst tag.
    destruct b; eexists; (split; [reflexivity|]); split; reflexivity.
Qed.

End DynamicElements.

(** ** The two revisions side by side *)

Section Revisions.

Variable Hex : list byte -> string.



(** X13. Which error comes from which tag, in the extended revision: the
    integer tags fail only with "invalid string" or "invalid type"; the
    string tag only with "String type is not string"; the address tag only
    with "invalid address", carrying the string the value holds when it
    holds one and the value otherwise; the bytes tag only with "Bytes type
    is neither slice nor array"; an unknown tag always fails, with "unknown
    type"; the bool, fixed-bytes and function tags never fail. *)
Theorem errors_by_tag_Extended
  (t : ABIType) (v : reflect.Value) (bs : list byte) (e : error) :
  Extended.packElement Hex t v = Done (bs, Some e) ->
  match T t with
  | IntTy | UintTy =>
      (exists s, v = reflect.Direct (VString s) /\ e = ErrInvalidString s) \/
      e = ErrInvalidType (Value.Kind v) ErrCannotConvert
  | StringTy => held_string v = None /\ e = ErrStringNotString
  | AddressTy =>
      (exists s, held_string v = Some s /\ e = ErrInvalidAddress s) \/
      (held_string v = None /\ e = ErrNotAnAddress (Value.Interface v))
  | BytesTy => e = ErrBytesNotSlice
  | OtherTy c => e = ErrUnknownType (OtherTy c)
  | BoolTy | FixedBytesTy | FunctionTy => False
  end.
Proof.
  intros H. destruct t as [[]]; each_value v; cbn in H |- *;
    try discriminate H; break_hyp H; try discriminate H;
    apply Done_bytes_inj in H; destruct H as [_ H]; injection H as <-;
    eauto.
  all: right;
    match goal with
    | E : match big.SetString ?s with _ => _ end = inr _ |- _ =>
        destruct (big.SetString s); [discriminate E|];
        injection E as <-; reflexivity
    end.
Qed.

(** X14. Which error comes from which tag, in the earlier revision: the
    integer tags fail only with "invalid string" or "unknown kind"; the
    address tag only for a string, with "invalid address"; the bytes tag
    only with "Bytes type is neither slice nor array"; an unknown tag
    always fails; the string, bool, fixed-bytes and function tags never
    return an error. *)
Theorem errors_by_tag_Earlier
  (t : ABIType) (v : reflect.Value) (bs : list byte) (e : error) :
  Earlier.packElement Hex t v = Done (bs, Some e) ->
  match T t with
  | IntTy | UintTy =>
      (exists s, v = reflect.Direct (VString s) /\ e = ErrInvalidString s) \/
      e = ErrUnknownKind (Value.Kind v)
  | AddressTy =>
      exists s, v = reflect.Direct (VString s) /\ e = ErrInvalidAddress s
  | BytesTy => e = ErrBytesNotSlice
  | OtherTy c => e = ErrUnknownType (OtherTy c)
  | StringTy | BoolTy | FixedBytesTy | FunctionTy => False
  end.
Proof.
  intros H. destruct t as [[]]; each_value v; cbn in H |- *;
    try discriminate H; break_hyp H; try discriminate H;
    apply Done_bytes_inj in H; destruct H as [_ H]; injection H as <-;
    eauto.
Qed.

End Revisions.

(** ** Instances of the further properties *)

Lemma packNum_boxed_number_witness :
  boxed_number (Some (VInt int64 (-2))) = Some (-2) /\
  Extended.packNum (reflect.Boxed (Some (VInt int64 (-2))))
  = Done (math.U256Bytes (-2), None).
Proof.
  split; [reflexivity|].
  apply (packNum_boxed_number (Some (VInt int64 (-2))) (-2) eq_refl).
Defined.

Lemma packNum_boxed_narrow_integer_witness :
  narrow_integer (VInt int8 5) = Some 5 /\
  Extended.packNum (reflect.Boxed (Some (VInt int8 5)))
  = Done ([], Some (ErrInvalidType reflect.Interface ErrCannotConvert)).
Proof.
  split; [reflexivity|].
  apply (packNum_boxed_narrow_integer (VInt int8 5) 5 eq_refl).
Defined.

Lemma bytes_element_reads_back_witness :
  raw_bytes (reflect.Direct (VArray [x01; x02])) = Some [x01; x02] /\
  len [x01; x02] <= int_max - 31 /\
  exists bs : list byte,
    Extended.packElement lower_hex (MkType BytesTy)
      (reflect.Direct (VArray [x01; x02])) = Done (bs, None) /\
    unpack_payload bs = [x01; x02].
Proof.
  assert (H : len [x01; x02] <= int_max - 31)
    by (unfold len, int_max; simpl; lia).
  split; [reflexivity|]. split; [exact H|].
  destruct (bytes_element_reads_back lower_hex
              (reflect.Direct (VArray [x01; x02])) [x01; x02] eq_refl H)
    as (bs & _ & E & _ & U & _).
  exists bs. split; assumption.
Defined.

Lemma string_element_reads_back_witness :
  Z.of_nat (String.length "hi") <= int_max - 31 /\
  exists bs : list byte,
    Extended.packElement lower_hex (MkType StringTy)
      (reflect.Direct (VString "hi")) = Done (bs, None) /\
    string_of_list_byte (unpack_payload bs) = "hi".
Proof.
  assert (H : Z.of_nat (String.length "hi") <= int_max - 31)
    by (unfold int_max; simpl; lia).
  split; [exact H|].
  destruct (string_element_reads_back lower_hex "hi" H)
    as (bs & _ & E & _ & U).
  exists bs. split; assumption.
Defined.

Lemma address_tag_cases_Extended_witness :
  held_string (reflect.Boxed (Some (VArray [x01]))) = None /\
  Extended.packElement lower_hex (MkType AddressTy)
    (reflect.Boxed (Some (VArray [x01])))
  = Done ([], Some (ErrNotAnAddress (Some (VArray [x01])))).
Proof.
  split; [reflexivity|].
  apply (address_tag_cases_Extended lower_hex
           (reflect.Boxed (Some (VArray [x01]))) eq_refl).
Defined.

Lemma address_tag_cases_Earlier_witness :
  Value.Kind (reflect.Direct (VBool true)) <> reflect.String /\
  Earlier.packElement lower_hex (MkType AddressTy) (reflect.Direct (VBool true))
  = Panic.
Proof.
  assert (H : Value.Kind (reflect.Direct (VBool true)) <> reflect.String)
    by (simpl; discriminate).
  split; [exact H|].
  apply (address_tag_cases_Earlier lower_hex (reflect.Direct (VBool true)) H).
Defined.

Lemma static_tags_never_fail_witness :
  T (MkType BoolTy) = BoolTy /\
  no_error (Extended.packElement lower_hex (MkType BoolTy)
              (reflect.Direct (VBool true))).
Proof.
  split; [reflexivity|].
  apply (static_tags_never_fail lower_hex (MkType BoolTy)
           (reflect.Direct (VBool true)) (or_introl eq_refl)).
Defined.


Lemma errors_by_tag_Extended_witness :
  Extended.packElement lower_hex (MkType StringTy) (reflect.Direct (VBool true))
  = Done ([], Some ErrStringNotString) /\
  held_string (reflect.Direct (VBool true)) = None.
Proof.
  assert (H : Extended.packElement lower_hex (MkType StringTy)
                (reflect.Direct (VBool true))
              = Done ([], Some ErrStringNotString)) by reflexivity.
  split; [exact H|].
  apply (errors_by_tag_Extended lower_hex (MkType StringTy)
           (reflect.Direct (VBool true)) [] ErrStringNotString H).
Defined.

Lemma errors_by_tag_Earlier_witness :
  Earlier.packElement lower_hex (MkType AddressTy)
    (reflect.Direct (VString "0x01"))
  = Done ([], Some (ErrInvalidAddress "0x01")) /\
  exists s, reflect.Direct (VString "0x01") = reflect.Direct (VString s) /\
            ErrInvalidAddress "0x01" = ErrInvalidAddress s.
Proof.
  assert (H : Earlier.packElement lower_hex (MkType AddressTy)
                (reflect.Direct (VString "0x01"))
              = Done ([], Some (ErrInvalidAddress "0x01")))
    by (vm_compute; reflexivity).
  split; [exact H|].
  apply (errors_by_tag_Earlier lower_hex (MkType AddressTy)
           (reflect.Direct (VString "0x01")) [] (ErrInvalidAddress "0x01") H).
Defined.
